(** * JSONReviver: the generic Reviver, toJSON and fromJSON functions

    A shallow embedding of the save/load helpers of the game: the type guard
    [isReviverValue], the revival hook [Reviver], and the generic
    [Generic_toJSON] / [Generic_fromJSON] pair, followed by the properties
    that the specification states about them.  After them come the string
    helpers, [Settings.load] with its two validity checks, and the filter of
    the server dropdown, each with the properties that its code shows.

    JavaScript objects are finite maps from property names to values
    ([gmap string JSValue]); a property may be present and hold [undefined],
    which is different from the property being absent.  Effects are the two
    the code has: [console.warn] and [throw]. *)

From stdpp Require Import gmap strings list fin_maps pretty.
From Stdlib Require Import Ascii HexadecimalString.

Local Open Scope string_scope.

(** ** JavaScript values *)

(** The values that flow through the reviver: the JSON scalars, [undefined],
    and objects.  Numbers are restricted to integers.  Arrays, functions,
    prototypes and accessor properties are not modelled, so an object is its
    own data properties, and reading [o[key]] never looks past them. *)
#[warnings="-register-all"]
Inductive JSValue : Type :=
  | VUndefined
  | VNull
  | VBool (b : bool)
  | VNum (n : Z)
  | VStr (s : string)
  | VObj (fields : gmap string JSValue).

(** [o[key]] on an object: the property's value, [undefined] when absent. *)
Definition get (o : gmap string JSValue) (key : string) : JSValue :=
  default VUndefined (o !! key).

(** [key in o]. *)
Definition has (o : gmap string JSValue) (key : string) : bool :=
  bool_decide (is_Some (o !! key)).

(** [val !== undefined]. *)
Definition isDefined (val : JSValue) : bool :=
  match val with VUndefined => false | _ => true end.

(** ** Effects *)

(** What can be thrown.  [Error] is the built-in [Error] with its message;
    the other two are the errors of the helpers the file imports. *)
Inductive exn : Type :=
  | Error (message : string)
  | TypeAssertionError
  | ValidationError (message : string).

(** What a run leaves behind besides its result.  [ConsoleWarn] is a
    [console.warn] line; [FromJSONCall] records that the [fromJSON] of the
    class registered under the given name was entered. *)
Inductive event : Type :=
  | ConsoleWarn (message : string)
  | FromJSONCall (name : string).

Inductive outcome (A : Type) : Type :=
  | Returned (a : A)
  | Thrown (e : exn).
Arguments Returned {A} a.
Arguments Thrown {A} e.

(** A computation: the events it emitted, in order, and how it ended. *)
Definition M (A : Type) : Type := (list event * outcome A)%type.

Definition ret {A} (a : A) : M A := ([], Returned a).
Definition throw {A} (e : exn) : M A := ([], Thrown e).
Definition emit (e : event) : M unit := ([e], Returned tt).

Definition bind {A B} (c : M A) (k : A -> M B) : M B :=
  match c with
  | (t1, Returned a) => let '(t2, r) := k a in ((t1 ++ t2)%list, r)
  | (t1, Thrown e) => (t1, Thrown e)
  end.

(** The computations form a monad; stdpp's [x ← c; k] and [c;; k] are used
    for sequencing. *)
#[global] Instance M_ret : MRet M := @ret.
#[global] Instance M_bind : MBind M := fun A B k c => bind c k.

Definition trace {A} (c : M A) : list event := fst c.
Definition result {A} (c : M A) : outcome A := snd c.

(** [console.warn(message)]. *)
Definition console_warn (message : string) : M unit := emit (ConsoleWarn message).

(** ** The envelope *)

(** [interface IReviverValue { ctor: string; data: T }]. *)
Record IReviverValue : Type := { ctor : string; data : JSValue }.

(** The object literal [{ ctor: c, data: d }]. *)
Definition envelope (rv : IReviverValue) : JSValue :=
  VObj (<["data" := data rv]> (<["ctor" := VStr (ctor rv)]> ∅)).

(** [isReviverValue]: the five conjuncts of the guard, in order. *)
Definition isReviverValue (value : JSValue) : bool :=
  match value with
  | VObj o =>
      has o "ctor"
      && match get o "ctor" with VStr _ => true | _ => false end
      && has o "data"
  | _ => false
  end.

(** The narrowing that the guard licenses: [value.ctor] and [value.data] of
    a value on which [isReviverValue] holds. *)
Definition asReviverValue (value : JSValue) : option IReviverValue :=
  match value with
  | VObj o =>
      match o !! "ctor", o !! "data" with
      | Some (VStr c), Some d => Some {| ctor := c; data := d |}
      | _, _ => None
      end
  | _ => None
  end.

(** ** Imported helpers *)

(** Modelled from the spec: [objectAssert] of ./helpers/typeAssertion, which
    is imported here and not part of these sources.  The raw data "must be a
    non-null structured value -- failing this is a TypeAssertion error".  On
    success the value is narrowed to its properties. *)
Definition objectAssert (v : JSValue) : M (gmap string JSValue) :=
  match v with
  | VObj o => mret o
  | _ => throw TypeAssertionError
  end.

(** ** The registry, the revival hook and the generic pair *)

Section Model.

(** [ObjectValidator] and [validateObject] come from ./Validator and
    [loadActionIdentifier] from ../Bladeburner/utils/loadActionIdentifier;
    neither is part of these sources, so the model takes them as given. *)
Context {ObjectValidator : Type}.
Variable validateObject : JSValue -> ObjectValidator -> M unit.
Variable loadActionIdentifier : JSValue -> M JSValue.

(** [JsonableClass]: what [Reviver] uses of a registered class. *)
Record JsonableClass : Type := {
  fromJSON : JSValue -> M JSValue;
  validationData : option ObjectValidator
}.

(** [constructorsForReviver]: the classes register themselves in this
    object when their modules load, so its content is a parameter. *)
Variable constructorsForReviver : gmap string JsonableClass.

(** The cases of the [switch] that share the warn-and-unwrap body. *)
Definition legacyUnwrapped : list string :=
  ["AllServersMap"; "Industry"; "Employee"; "Company"; "Faction"].

(** [Reviver].  After the guard, [value] is read through its narrowing
    [rv]; the [None] branch of that [match] is never taken, since the guard
    holds there (lemma [asReviverValue_None] below). *)
Definition Reviver (_key : string) (value : JSValue) : M JSValue :=
  if negb (isReviverValue value) then mret value else
  match asReviverValue value with
  | None => mret value
  | Some rv =>
      match constructorsForReviver !! ctor rv with
      | None =>
          if bool_decide (ctor rv ∈ legacyUnwrapped) then
            console_warn ("Legacy load type " ++ ctor rv
                          ++ " converted to expected format while loading.");;
            mret (data rv)
          else if bool_decide (ctor rv = "ActionIdentifier") then
            loadActionIdentifier (data rv)
          else
            throw (Error ("Could not locate constructor named " ++ ctor rv
                          ++ ". If the save data is valid, this is a bug."))
      | Some cls =>
          obj ← (emit (FromJSONCall (ctor rv));; fromJSON cls value);
          match validationData cls with
          | Some validator => validateObject obj validator;; mret obj
          | None => mret obj
          end
      end
  end.

End Model.

Arguments JsonableClass : clear implicits.
Arguments fromJSON {ObjectValidator} _ _.
Arguments validationData {ObjectValidator} _.

(** [Generic_toJSON]: with [keys], [data[key] = obj[key]] for each key;
    without, every entry of [Object.entries(obj)] is assigned.  The entries
    of an object have distinct keys, so the order in which they are visited
    does not change the object that the loop builds. *)
Definition Generic_toJSON (ctorName : string) (obj : gmap string JSValue)
    (keys : option (list string)) : IReviverValue :=
  let data : gmap string JSValue := ∅ in
  match keys with
  | Some keys =>
      let data := foldl (fun data key => <[key := get obj key]> data) data keys in
      {| ctor := ctorName; data := VObj data |}
  | None =>
      let data :=
        foldl (fun data '(key, val) => <[key := val]> data) data (map_to_list obj) in
      {| ctor := ctorName; data := VObj data |}
  end.

(** [Generic_fromJSON]: [ctor] stands for [new ctor()], the freshly
    constructed default instance. *)
Definition Generic_fromJSON (ctor : unit -> gmap string JSValue) (data : JSValue)
    (keys : option (list string)) : M (gmap string JSValue) :=
  data ← objectAssert data;
  let obj := ctor tt in
  match keys with
  | Some keys =>
      mret (foldl (fun obj key =>
                     let val := get data key in
                     if isDefined val then <[key := val]> obj else obj)
                  obj keys)
  | None =>
      mret (foldl (fun obj '(key, val) => <[key := val]> obj) obj (map_to_list data))
  end.

(** ** Sample classes, used to run the model on concrete saves *)

Module Samples.

(** A schema that names one field which must hold a number. *)
Definition NumericField : Type := string.

Definition validateNumeric (obj : JSValue) (field : NumericField) : M unit :=
  match obj with
  | VObj o =>
      match get o field with
      | VNum _ => mret tt
      | _ => throw (ValidationError ("Property " ++ field ++ " must be a number."))
      end
  | _ => throw (ValidationError "Not an object.")
  end.

(** A migration function that does no I/O: keeps objects, maps anything
    else to [null]. *)
Definition loadPure (data : JSValue) : M JSValue :=
  match data with
  | VObj o => mret (VObj o)
  | _ => mret VNull
  end.

(** [class Widget { v = 0; label = "none" }] with the usual
    [static fromJSON(value) { return Generic_fromJSON(Widget, value.data) }]. *)
Definition newWidget (_ : unit) : gmap string JSValue :=
  <["label" := VStr "none"]> (<["v" := VNum 0]> ∅).

Definition Widget_fromJSON (value : JSValue) : M JSValue :=
  match value with
  | VObj o => obj ← Generic_fromJSON newWidget (get o "data") None; mret (VObj obj)
  | _ => throw TypeAssertionError
  end.

(** [Widget] declares a schema, [Gadget] does not. *)
Definition Widget : JsonableClass NumericField :=
  {| fromJSON := Widget_fromJSON; validationData := Some "v" |}.
Definition Gadget : JsonableClass NumericField :=
  {| fromJSON := Widget_fromJSON; validationData := None |}.

Definition registry : gmap string (JsonableClass NumericField) :=
  <["Gadget" := Gadget]> (<["Widget" := Widget]> ∅).

Definition revive : string -> JSValue -> M JSValue :=
  Reviver validateNumeric loadPure registry.

(** [{ v: "not-a-number" }], [{ v: 7 }], [{ x: 1 }], [{ a: undefined }]. *)
Definition badData : gmap string JSValue := <["v" := VStr "not-a-number"]> ∅.
Definition goodData : gmap string JSValue := <["v" := VNum 7]> ∅.
Definition x1 : gmap string JSValue := <["x" := VNum 1]> ∅.
Definition aUndefined : gmap string JSValue := <["a" := VUndefined]> ∅.

(** [class A { a = 1 }]. *)
Definition newA (_ : unit) : gmap string JSValue := <["a" := VNum 1]> ∅.

End Samples.

(** ** The specification's notion of a well-formed envelope *)

(** "envelopes are well-formed only if [tag] is a non-empty string and [data]
    is present". *)
Definition wellFormedEnvelope (value : JSValue) : Prop :=
  ∃ o c d, value = VObj o ∧ o !! "ctor" = Some (VStr c) ∧ c ≠ "" ∧ o !! "data" = Some d.

(** What the guard of the code accepts: the same without the non-emptiness. *)
Definition envelopeShaped (value : JSValue) : Prop :=
  ∃ o c d, value = VObj o ∧ o !! "ctor" = Some (VStr c) ∧ o !! "data" = Some d.

(** "Valid instance" for the round trip: every serialized field is an own
    property that holds a value ([undefined] is not a JSON value). *)
Definition validInstance (keys : list string) (x : gmap string JSValue) : Prop :=
  ∀ k, k ∈ keys → ∃ v, x !! k = Some v ∧ v ≠ VUndefined.

(** * String helpers *)

(** The helpers of the string utilities work on JavaScript strings, kept here
    as Rocq strings with one [ascii] per code unit, and on numbers that are
    integers. *)

(** [s.charAt(i)]: the one-character string at [i], [""] out of range. *)
Definition charAt (s : string) (i : nat) : string :=
  match String.get i s with
  | Some c => String c ""
  | None => ""
  end.

(** [s.slice(1)]. *)
Definition slice1 (s : string) : string :=
  match s with
  | "" => ""
  | String _ rest => rest
  end.

(** [s.split(" ")]: the pieces between the spaces; never the empty array. *)
Fixpoint splitSpace (s : string) : list string :=
  match s with
  | "" => [""]
  | String c rest =>
      if bool_decide (c = " "%char) then "" :: splitSpace rest
      else match splitSpace rest with
           | word :: words => String c word :: words
           | [] => [String c ""]
           end
  end.

(** [typeof value === "string"]. *)
Definition isString (value : JSValue) : bool :=
  match value with VStr _ => true | _ => false end.

(** [containsAllStrings]: [arr.every(...)]. *)
Definition containsAllStrings (arr : list JSValue) : bool := forallb isString arr.

(** The strings of an array on which [containsAllStrings] holds. *)
Definition theStrings (arr : list JSValue) : list string :=
  omap (fun value => match value with VStr s => Some s | _ => None end) arr.

Section StringHelpers.

(** [String.prototype.toUpperCase] is the engine's; the helpers are modelled
    over it. *)
Variable toUpperCase : string -> string.

(** The two loops of [longestCommonStart]: [todo] counts the positions of
    [a1] still to visit, [i] is the current one.  The inner loop leaves at the
    first string that differs at [i]. *)
Fixpoint commonStartFrom (a1 : string) (others : list string) (todo i : nat) : string :=
  match todo with
  | 0 => a1
  | S todo =>
      let chr := toUpperCase (charAt a1 i) in
      if forallb (fun s => bool_decide (chr = toUpperCase (charAt s i))) others
      then commonStartFrom a1 others todo (S i)
      else String.substring 0 i a1
  end.

Definition longestCommonStart (strings : list JSValue) : string :=
  if negb (containsAllStrings strings) then "" else
  match theStrings strings with
  | [] => ""
  | a1 :: others => commonStartFrom a1 others (String.length a1) 0
  end.

Definition capitalizeFirstLetter (s : string) : string :=
  toUpperCase (charAt s 0) ++ slice1 s.

Definition capitalizeEachWord (s : string) : string :=
  String.concat " " (capitalizeFirstLetter <$> splitSpace s).

End StringHelpers.

(** [generateRandomString].  [random i] stands for the [i]-th evaluation of
    [Math.floor(Math.random() * chars.length)]. *)
Definition randomChars : string :=
  "ABCDEFGHIJKLMNOPQRSTUVWXYZabcdefghijklmnopqrstuvwxyz0123456789".

Fixpoint generateFrom (random : nat -> nat) (todo i : nat) (str : string) : string :=
  match todo with
  | 0 => str
  | S todo => generateFrom random todo (S i) (str ++ charAt randomChars (random i))
  end.

Definition generateRandomString (random : nat -> nat) (n : Z) : string :=
  generateFrom random (Z.to_nat n) 0 "".

(** ** 32-bit integer arithmetic *)

(** [ToInt32] and [ToUint32] of an integer. *)
Definition toInt32 (z : Z) : Z := ((z + 2 ^ 31) `mod` 2 ^ 32 - 2 ^ 31)%Z.
Definition toUint32 (z : Z) : Z := (z `mod` 2 ^ 32)%Z.

(** [Math.imul(a, b)], [a ^ b], [a & b] and [a >>> n]. *)
Definition imul (a b : Z) : Z := toInt32 (toInt32 a * toInt32 b)%Z.
Definition xor32 (a b : Z) : Z := toInt32 (Z.lxor (toInt32 a) (toInt32 b)).
Definition and32 (a b : Z) : Z := toInt32 (Z.land (toInt32 a) (toInt32 b)).
Definition ushr32 (a n : Z) : Z := Z.shiftr (toUint32 a) (n `mod` 32)%Z.

(** [str.charCodeAt(i)] for each [i] in turn. *)
Definition charCodes (str : string) : list Z :=
  (fun c => Z.of_N (N_of_ascii c)) <$> String.list_ascii_of_string str.

(** The [for] loop of [cyrb53] over the code units. *)
Definition cyrb53Mix (h : Z * Z) (ch : Z) : Z * Z :=
  (imul (xor32 h.1 ch) 2654435761%Z, imul (xor32 h.2 ch) 1597334677%Z).

(** The number that [cyrb53] prints. *)
Definition cyrb53Number (str : string) (seed : Z) : Z :=
  let h1 := xor32 3735928559%Z seed in
  let h2 := xor32 1103547991%Z seed in
  let '(h1, h2) := foldl cyrb53Mix (h1, h2) (charCodes str) in
  let h1 := xor32 (imul (xor32 h1 (ushr32 h1 16%Z)) 2246822507%Z)
                  (imul (xor32 h2 (ushr32 h2 13%Z)) 3266489909%Z) in
  let h2 := xor32 (imul (xor32 h2 (ushr32 h2 16%Z)) 2246822507%Z)
                  (imul (xor32 h1 (ushr32 h1 13%Z)) 3266489909%Z) in
  (4294967296 * and32 2097151 h2 + ushr32 h1 0)%Z.

(** [n.toString(16)] for a non-negative integer. *)
Definition toString16 (n : Z) : string :=
  NilZero.string_of_uint (N.to_hex_uint (Z.to_N n)).

Definition cyrb53 (str : string) (seed : Z) : string :=
  toString16 (cyrb53Number str seed).

(** ** Elapsed time *)

(** [while (str.length < 3) str = "0" + str], which runs at most three times. *)
Fixpoint padTo3 (fuel : nat) (str : string) : string :=
  match fuel with
  | 0 => str
  | S fuel => if bool_decide (String.length str < 3)%nat then padTo3 fuel ("0" ++ str) else str
  end.

Definition plural (n : Z) : string := if bool_decide (n = 1%Z) then "" else "s".

(** [convertTimeMsToTimeElapsedString] for a whole number of milliseconds;
    [showMiddle] is [Settings.ShowMiddleNullTimeUnit]. *)
Definition convertTimeMsToTimeElapsedString (showMiddle : bool) (time : Z)
    (showMilli : bool) : string :=
  let negFlag := bool_decide (time < 0)%Z in
  let time := Z.abs time in
  let millisecondsPerSecond := 1000%Z in
  let secondPerMinute := 60%Z in
  let minutesPerHours := 60%Z in
  let secondPerHours := (secondPerMinute * minutesPerHours)%Z in
  let hoursPerDays := 24%Z in
  let secondPerDay := (secondPerHours * hoursPerDays)%Z in
  let totalSeconds := (time `div` millisecondsPerSecond)%Z in
  let days := (totalSeconds `div` secondPerDay)%Z in
  let secTruncDays := (totalSeconds `mod` secondPerDay)%Z in
  let hours := (secTruncDays `div` secondPerHours)%Z in
  let secTruncHours := (secTruncDays `mod` secondPerHours)%Z in
  let minutes := (secTruncHours `div` secondPerMinute)%Z in
  let secTruncMinutes := (secTruncHours `mod` secondPerMinute)%Z in
  let milliTruncSec := padTo3 3 (pretty (time `mod` millisecondsPerSecond)%Z) in
  let seconds :=
    if showMilli then pretty secTruncMinutes ++ "." ++ milliTruncSec
    else pretty secTruncMinutes in
  let res := "" in
  let res :=
    if bool_decide (0 < days)%Z
    then res ++ pretty days ++ " day" ++ plural days ++ " " else res in
  let res :=
    if bool_decide (0 < hours)%Z || (showMiddle && negb (bool_decide (res = "")))
    then res ++ pretty hours ++ " hour" ++ plural hours ++ " " else res in
  let res :=
    if bool_decide (0 < minutes)%Z || (showMiddle && negb (bool_decide (res = "")))
    then res ++ pretty minutes ++ " minute" ++ plural minutes ++ " " else res in
  let res :=
    res ++ seconds ++ " second"
        ++ (if negb showMilli && bool_decide (secTruncMinutes = 1%Z) then "" else "s") in
  if negFlag then "-(" ++ res ++ ")" else res.

(** * Settings *)

(** [value] taken as a condition: [false] for [undefined], [null], [false],
    [0] and [""]. *)
Definition truthy (value : JSValue) : bool :=
  match value with
  | VUndefined | VNull => false
  | VBool b => b
  | VNum n => negb (bool_decide (n = 0%Z))
  | VStr s => negb (bool_decide (s = ""))
  | VObj _ => true
  end.

(** The own enumerable properties that [Object.assign] copies from a
    source: those of an object, the characters of a string under their
    indices, and none for the other primitives. *)
Definition ownEntries (source : JSValue) : gmap string JSValue :=
  match source with
  | VObj o => o
  | VStr s =>
      list_to_map (imap (fun i c => (pretty i, VStr (String c "")))
                        (String.list_ascii_of_string s))
  | _ => ∅
  end.

(** The properties of a string that cannot be written: its indices and
    [length]. *)
Definition readOnlyKeys (s : string) : list string :=
  "length" :: (pretty <$> seq 0 (String.length s)).

(** [Object.assign(target, source)]: [None] when it throws a [TypeError],
    otherwise what [target] is after the call.  An object receives the
    entries of the source.  A primitive is wrapped, and the wrapper is then
    dropped, so it stays as it is; writing a read-only property of a string
    throws. *)
Definition objectAssign (target source : JSValue) : option JSValue :=
  match target with
  | VUndefined | VNull => None
  | VObj t => Some (VObj (ownEntries source ∪ t))
  | VStr s =>
      if bool_decide (Exists (fun key => is_Some (ownEntries source !! key)) (readOnlyKeys s))
      then None else Some target
  | VBool _ | VNum _ => Some target
  end.

Module Settings.

(** What [load] reads of a [URL]. *)
Record URL : Type := { port : string; pathname : string; search : string }.

(** How a call of [load] ends: normally, with the hostnames reported through
    [console.error] and the settings as they are afterwards, or with a
    [TypeError], and the settings as they are at that point. *)
Inductive LoadResult : Type :=
  | Loaded (errors : list JSValue) (Settings : gmap string JSValue)
  | Threw (Settings : gmap string JSValue).

Section WithURL.

(** [new URL(text)] is the browser's: [None] when it throws. *)
Variable newURL : string -> option URL.

(** [isValidConnectionHostname].  The result comes with the hostnames that
    were reported through [console.error].  Called on something that is not
    a string, [hostname.startsWith] throws inside the [try]. *)
Definition isValidConnectionHostname (hostname : JSValue) : list JSValue * bool :=
  match hostname with
  | VStr h =>
      if String.prefix "http://" h || String.prefix "https://" h then ([], false)
      else
        match newURL ("http://" ++ h) with
        | None => ([hostname], false)
        | Some url =>
            if negb (bool_decide (port url = ""))
               || negb (bool_decide (pathname url = "/"))
               || negb (bool_decide (search url = ""))
            then ([], false)
            else ([], true)
        end
  | _ => ([hostname], false)
  end.

(** [isValidConnectionPort]: [Number.isFinite] holds of every number of the
    model and of nothing else. *)
Definition isValidConnectionPort (port : JSValue) : bool :=
  match port with
  | VNum n => bool_decide (0 < n)%Z && bool_decide (n ≤ 65535)%Z
  | _ => false
  end.

(** [save[key] && Object.assign(Settings[key], save[key])]. *)
Definition assignNested (key : string) (save Settings : gmap string JSValue)
    : option (gmap string JSValue) :=
  if truthy (get save key) then
    target ← objectAssign (get Settings key) (get save key);
    Some (<[key := target]> Settings)
  else Some Settings.

(** [Settings.load], from the parsed save on: [save] is what [JSON.parse]
    returned, an object.  [Settings] holds the data properties of the
    settings object.  Of the four operands of the comma expression only the
    first one is under [delete]. *)
Definition load (save Settings : gmap string JSValue) : LoadResult :=
  match assignNested "theme" save Settings with
  | None => Threw Settings
  | Some Settings =>
  match assignNested "styles" save Settings with
  | None => Threw Settings
  | Some Settings =>
  match assignNested "overview" save Settings with
  | None => Threw Settings
  | Some Settings =>
  match assignNested "EditorTheme" save Settings with
  | None => Threw Settings
  | Some Settings =>
      let save := delete "theme" save in
      let Settings := save ∪ Settings in
      let '(errors, valid) := isValidConnectionHostname (get Settings "RemoteFileApiAddress") in
      let Settings :=
        if negb valid then <["RemoteFileApiAddress" := VStr "localhost"]> Settings
        else Settings in
      let Settings :=
        if negb (isValidConnectionPort (get Settings "RemoteFileApiPort"))
        then <["RemoteFileApiPort" := VNum 0]> Settings
        else Settings in
      Loaded errors Settings
  end end end end.

(** The two checks that end [load], on their own. *)
Definition sanitized (Settings : gmap string JSValue) : gmap string JSValue :=
  let Settings :=
    if negb (isValidConnectionHostname (get Settings "RemoteFileApiAddress")).2
    then <["RemoteFileApiAddress" := VStr "localhost"]> Settings else Settings in
  if negb (isValidConnectionPort (get Settings "RemoteFileApiPort"))
  then <["RemoteFileApiPort" := VNum 0]> Settings else Settings.

End WithURL.

End Settings.

(** * The server dropdown *)

(** What [isValidServer] looks at in a server: its hostname, whether it is
    an instance of [Server] and then whether the player bought it, and
    whether it is an instance of [HacknetServer]. *)
Record BaseServer : Type := {
  hostname : string;
  instanceofServer : bool;
  purchasedByPlayer : bool;
  instanceofHacknetServer : bool
}.

(** [ServerType]. *)
Module ServerType.
Definition All : Z := 0.
Definition Foreign : Z := 1.
Definition Owned : Z := 2.
Definition Purchased : Z := 3.
End ServerType.

(** [isValidServer], the filter inside [ServerDropdown].  [serverType] is
    [props.serverType] and [hasTheRedPill] is the answer of
    [Player.hasAugmentation(AugmentationName.TheRedPill, true)].  In the
    [Foreign] case the conditional operator takes the whole conjunction as
    its condition. *)
Definition isValidServer (serverType : Z) (hasTheRedPill : bool) (s : BaseServer) : M bool :=
  let purchased :=
    (instanceofServer s && purchasedByPlayer s) || instanceofHacknetServer s in
  let type := serverType in
  if bool_decide (type = ServerType.All) then mret true
  else if bool_decide (type = ServerType.Foreign) then
    mret (if negb (bool_decide (hostname s = "home")) && negb purchased && negb hasTheRedPill
          then negb (bool_decide (hostname s = "w0r1d_d43m0n"))
          else true)
  else if bool_decide (type = ServerType.Owned) then
    mret (purchased || bool_decide (hostname s = "home"))
  else if bool_decide (type = ServerType.Purchased) then mret purchased
  else
    console_warn ("Invalid ServerType specified for ServerDropdown component: "
                  ++ pretty type);;
    mret false.

(** ** Sample inputs for the helpers and for the settings *)

Module HelperSamples.

(** [toUpperCase] on strings of ASCII characters. *)
Definition upperChar (c : ascii) : ascii :=
  let n := nat_of_ascii c in
  if (97 <=? n)%nat && (n <=? 122)%nat then ascii_of_nat (n - 32) else c.

Fixpoint toUpperCase (s : string) : string :=
  match s with
  | "" => ""
  | String c rest => String (upperChar c) (toUpperCase rest)
  end.

(** Draws that walk through the alphabet. *)
Definition draws (i : nat) : nat := (i * 7) `mod` 62.

(** A [URL] parser for three hostnames: one that does not parse, one with a
    port, and the rest, taken as plain hostnames. *)
Definition newURL (text : string) : option Settings.URL :=
  if bool_decide (text = "http://bad host") then None
  else if bool_decide (text = "http://example.org:80")
  then Some {| Settings.port := "80"; Settings.pathname := "/"; Settings.search := "" |}
  else Some {| Settings.port := ""; Settings.pathname := "/"; Settings.search := "" |}.

(** Settings with two colours and two style fields, and a save that brings
    one colour, one style field, a port out of range and an address with a
    scheme. *)
Definition current : gmap string JSValue :=
  <["theme" := VObj (<["primary" := VStr "green"]> (<["secondary" := VStr "red"]> ∅))]>
    (<["styles" := VObj (<["lineHeight" := VNum 1]> (<["fontFamily" := VStr "mono"]> ∅))]>
       (<["overview" := VObj ∅]>
          (<["EditorTheme" := VObj ∅]>
             (<["RemoteFileApiAddress" := VStr "localhost"]>
                (<["RemoteFileApiPort" := VNum 0]> ∅))))).

Definition saved : gmap string JSValue :=
  <["theme" := VObj (<["primary" := VStr "blue"]> ∅)]>
    (<["styles" := VObj (<["lineHeight" := VNum 2]> ∅)]>
       (<["RemoteFileApiPort" := VNum 70000]>
          (<["RemoteFileApiAddress" := VStr "https://example.org"]> ∅))).

Definition savedNullStyles : gmap string JSValue := <["styles" := VNull]> ∅.

(** The settings and the reported hostnames that a [LoadResult] carries. *)
Definition settingsOf (r : Settings.LoadResult) : gmap string JSValue :=
  match r with
  | Settings.Loaded _ Settings => Settings
  | Settings.Threw Settings => Settings
  end.

Definition errorsOf (r : Settings.LoadResult) : list JSValue :=
  match r with
  | Settings.Loaded errors _ => errors
  | Settings.Threw _ => []
  end.

End HelperSamples.

(** * Properties *)

(** ** The monad *)

Lemma bind_ret_l {A B} (a : A) (k : A -> M B) : (mret a ≫= k) = k a.
Proof.
  unfold mbind, M_bind, bind, mret, M_ret, ret. by destruct (k a).
Qed.

Lemma bind_throw {A B} (e : exn) (k : A -> M B) : (throw e ≫= k) = throw e.
Proof. reflexivity. Qed.

Lemma bind_outcome {A B} (c : M A) (k : A -> M B) :
  (c ≫= k) =
  match result c with
  | Returned a => ((trace c ++ trace (k a))%list, result (k a))
  | Thrown e => (trace c, Thrown e)
  end.
Proof.
  destruct c as [t [a|e]]; unfold mbind, M_bind, bind; simpl; [|done].
  by destruct (k a).
Qed.

(** ** The field-copy loops *)

(** [for (const key of keys) data[key] = obj[key]]. *)
Lemma lookup_copy_keys (obj : gmap string JSValue) keys (acc : gmap string JSValue) k :
  foldl (fun data key => <[key := get obj key]> data) acc keys !! k
  = if decide (k ∈ keys) then Some (get obj k) else acc !! k.
Proof.
  revert acc. induction keys as [|key keys IH]; intros acc; cbn [foldl].
  - by rewrite decide_False by apply not_elem_of_nil.
  - rewrite IH. destruct (decide (k ∈ keys)) as [Hin|Hin].
    + by rewrite decide_True by (by right).
    + destruct (decide (k = key)) as [->|Hne].
      * rewrite decide_True by left. by rewrite lookup_insert_eq.
      * rewrite decide_False by (by intros [?|?]%elem_of_cons).
        by rewrite lookup_insert_ne.
Qed.

(** [for (const [key, val] of entries) obj[key] = val], for entries with
    distinct keys. *)
Lemma lookup_assign_entries (l : list (string * JSValue)) (acc : gmap string JSValue) k :
  NoDup l.*1 →
  foldl (fun obj '(key, val) => <[key := val]> obj) acc l !! k
  = match (list_to_map l : gmap string JSValue) !! k with
    | Some v => Some v
    | None => acc !! k
    end.
Proof.
  revert acc. induction l as [|[key val] l IH]; intros acc Hnd; simpl.
  - by rewrite lookup_empty.
  - apply NoDup_cons in Hnd as [Hkey Hnd]. rewrite IH by done.
    destruct (decide (k = key)) as [->|Hne].
    + rewrite lookup_insert_eq.
      by rewrite (not_elem_of_list_to_map_1 l key Hkey), lookup_insert_eq.
    + by rewrite !lookup_insert_ne.
Qed.

(** Assigning every own entry of [src] onto [dst] is the left-biased union. *)
Lemma assign_entries_union (src dst : gmap string JSValue) :
  foldl (fun obj '(key, val) => <[key := val]> obj) dst (map_to_list src) = src ∪ dst.
Proof.
  apply map_eq; intros k.
  rewrite lookup_assign_entries by apply NoDup_fst_map_to_list.
  rewrite list_to_map_to_list, lookup_union.
  by destruct (src !! k), (dst !! k).
Qed.

(** The loop of [Generic_fromJSON] with an allow-list. *)
Lemma lookup_restore_keys (data : gmap string JSValue) keys (obj : gmap string JSValue) k :
  foldl (fun obj key =>
           let val := get data key in
           if isDefined val then <[key := val]> obj else obj) obj keys !! k
  = if decide (k ∈ keys) then
      (if isDefined (get data k) then Some (get data k) else obj !! k)
    else obj !! k.
Proof.
  revert obj. induction keys as [|key keys IH]; intros obj; cbn [foldl].
  - by rewrite decide_False by apply not_elem_of_nil.
  - rewrite IH. destruct (decide (k = key)) as [->|Hne].
    + rewrite (decide_True (P := key ∈ key :: keys)) by left.
      destruct (isDefined (get data key)) eqn:Hdef.
      * rewrite lookup_insert_eq. by destruct (decide (key ∈ keys)).
      * by destruct (decide (key ∈ keys)).
    + assert (Hobj : (if isDefined (get data key) then <[key := get data key]> obj else obj) !! k
                     = obj !! k).
      { destruct (isDefined (get data key)); [by rewrite lookup_insert_ne|done]. }
      rewrite Hobj. destruct (decide (k ∈ keys)) as [Hin|Hin].
      * by rewrite decide_True by (by right).
      * by rewrite decide_False by (by intros [?|?]%elem_of_cons).
Qed.

(** ** What the generic pair computes *)

Lemma Generic_toJSON_keys ctorName (obj : gmap string JSValue) keys :
  ∃ d : gmap string JSValue,
    Generic_toJSON ctorName obj (Some keys) = {| ctor := ctorName; data := VObj d |}
    ∧ ∀ k, d !! k = if decide (k ∈ keys) then Some (get obj k) else None.
Proof.
  eexists; split; [reflexivity|].
  intros k. by rewrite lookup_copy_keys, lookup_empty.
Qed.

Lemma Generic_toJSON_all ctorName (obj : gmap string JSValue) :
  Generic_toJSON ctorName obj None = {| ctor := ctorName; data := VObj obj |}.
Proof.
  unfold Generic_toJSON. by rewrite assign_entries_union, (right_id_L ∅ (∪)).
Qed.

Lemma Generic_fromJSON_keys ctor (d : gmap string JSValue) keys :
  ∃ y : gmap string JSValue,
    Generic_fromJSON ctor (VObj d) (Some keys) = mret y
    ∧ ∀ k, y !! k = if decide (k ∈ keys) then
                      (if isDefined (get d k) then Some (get d k) else ctor tt !! k)
                    else ctor tt !! k.
Proof.
  eexists; split.
  - unfold Generic_fromJSON, objectAssert. rewrite bind_ret_l. reflexivity.
  - intros k. apply lookup_restore_keys.
Qed.

Lemma Generic_fromJSON_all ctor (d : gmap string JSValue) :
  Generic_fromJSON ctor (VObj d) None = mret (d ∪ ctor tt).
Proof.
  unfold Generic_fromJSON, objectAssert. rewrite bind_ret_l.
  by rewrite assign_entries_union.
Qed.


Lemma isDefined_true v : v ≠ VUndefined → isDefined v = true.
Proof. by destruct v. Qed.

(** ** Generic_toJSON and Generic_fromJSON *)

(** C1: round trip.  For a class with default constructor [ctor] and field
    list [keys], and an instance [x] whose fields in [keys] all hold a value,
    rebuilding from the data of [Generic_toJSON ctorName x keys] returns an
    instance that agrees with [x] on every field in [keys]. *)
Theorem Generic_roundtrip ctorName ctor keys (x : gmap string JSValue) :
  validInstance keys x →
  ∃ y : gmap string JSValue,
    Generic_fromJSON ctor (data (Generic_toJSON ctorName x (Some keys))) (Some keys) = mret y
    ∧ ∀ k, k ∈ keys → y !! k = x !! k.
Proof.
  intros Hvalid.
  destruct (Generic_toJSON_keys ctorName x keys) as (d & -> & Hd).
  destruct (Generic_fromJSON_keys ctor d keys) as (y & Hy & Hlook).
  exists y; split; [exact Hy|].
  intros k Hk. destruct (Hvalid k Hk) as (v & Hx & Hv).
  rewrite Hlook, decide_True by done.
  assert (Hget : get d k = v).
  { unfold get at 1. rewrite Hd, decide_True by done. unfold get. by rewrite Hx. }
  by rewrite Hget, isDefined_true, Hx.
Qed.

Lemma Generic_roundtrip_witness :
  ∃ y : gmap string JSValue,
    Generic_fromJSON Samples.newWidget
      (data (Generic_toJSON "Widget" Samples.goodData (Some ["v"]))) (Some ["v"]) = mret y
    ∧ ∀ k, k ∈ ["v"] → y !! k = Samples.goodData !! k.
Proof.
  apply Generic_roundtrip.
  intros k ->%list_elem_of_singleton.
  exists (VNum 7). split; [reflexivity | discriminate].
Defined.

(** Without an allow-list nothing is lost on the way: rebuilding from the
    data of [Generic_toJSON ctorName x] gives [x] laid over the defaults. *)
Lemma Generic_roundtrip_all_fields ctorName ctor (x : gmap string JSValue) :
  Generic_fromJSON ctor (data (Generic_toJSON ctorName x None)) None = mret (x ∪ ctor tt).
Proof. rewrite Generic_toJSON_all. apply Generic_fromJSON_all. Qed.








(** C10: a field that the data holds as [undefined] keeps the default when an
    allow-list is given, and is assigned, as [undefined], when none is. *)
Theorem Generic_fromJSON_undefined_asymmetry ctor (d : gmap string JSValue) K k :
  d !! k = Some VUndefined →
  (∃ y : gmap string JSValue,
     Generic_fromJSON ctor (VObj d) (Some K) = mret y ∧ y !! k = ctor tt !! k)
  ∧ (∃ y : gmap string JSValue,
       Generic_fromJSON ctor (VObj d) None = mret y ∧ y !! k = Some VUndefined).
Proof.
  intros Hk. split.
  - destruct (Generic_fromJSON_keys ctor d K) as (y & Hy & Hlook).
    exists y. split; [exact Hy|].
    rewrite Hlook. unfold get. rewrite Hk. simpl. by case_decide.
  - exists (d ∪ ctor tt). split; [apply Generic_fromJSON_all|].
    by rewrite (lookup_union_Some_l _ _ _ _ Hk).
Qed.

Lemma Generic_fromJSON_undefined_asymmetry_witness :
  (∃ y : gmap string JSValue,
     Generic_fromJSON Samples.newA (VObj Samples.aUndefined) (Some ["a"]) = mret y
     ∧ y !! "a" = Samples.newA tt !! "a")
  ∧ (∃ y : gmap string JSValue,
       Generic_fromJSON Samples.newA (VObj Samples.aUndefined) None = mret y
       ∧ y !! "a" = Some VUndefined).
Proof.
  apply (Generic_fromJSON_undefined_asymmetry Samples.newA Samples.aUndefined ["a"] "a").
  reflexivity.
Defined.

(** ** The type guard *)

Lemma isReviverValue_shaped value : isReviverValue value = true ↔ envelopeShaped value.
Proof.
  unfold envelopeShaped. destruct value as [| | | | |o];
    try (split; [done | by intros (? & ? & ? & [=] & _)]).
  unfold isReviverValue, has, get. split.
  - destruct (o !! "ctor") as [[| | | |c|]|] eqn:Hc; simpl; try done.
    destruct (o !! "data") as [d|] eqn:Hd; simpl; [|done].
    intros _. by exists o, c, d.
  - by intros (o' & c & d & [= <-] & -> & ->).
Qed.

Lemma asReviverValue_shaped (o : gmap string JSValue) c d :
  o !! "ctor" = Some (VStr c) → o !! "data" = Some d →
  asReviverValue (VObj o) = Some {| ctor := c; data := d |}.
Proof. intros Hc Hd. simpl. by rewrite Hc, Hd. Qed.

Lemma asReviverValue_None value :
  asReviverValue value = None ↔ isReviverValue value = false.
Proof.
  rewrite <-not_true_iff_false, isReviverValue_shaped. split.
  - intros Hnone (o & c & d & -> & Hc & Hd).
    by rewrite (asReviverValue_shaped o c d) in Hnone.
  - intros Hno. destruct value as [| | | | |o]; try done. simpl.
    destruct (o !! "ctor") as [[| | | |c|]|] eqn:Hc; try done.
    destruct (o !! "data") as [d|] eqn:Hd; [|done].
    destruct Hno. by exists o, c, d.
Qed.

(** ** Reviver *)

Section Reviver_properties.

Context {ObjectValidator : Type}.
Variable validateObject : JSValue -> ObjectValidator -> M unit.
Variable loadActionIdentifier : JSValue -> M JSValue.
Variable constructorsForReviver : gmap string (JsonableClass ObjectValidator).

Local Abbreviation revive :=
  (Reviver validateObject loadActionIdentifier constructorsForReviver).

(** On an object with a string [ctor] and a [data] member the guard holds,
    and [Reviver] dispatches on the registry. *)
Lemma Reviver_envelope key (o : gmap string JSValue) c d :
  o !! "ctor" = Some (VStr c) → o !! "data" = Some d →
  revive key (VObj o)
  = match constructorsForReviver !! c with
    | None =>
        if bool_decide (c ∈ legacyUnwrapped) then
          console_warn ("Legacy load type " ++ c
                        ++ " converted to expected format while loading.");;
          mret d
        else if bool_decide (c = "ActionIdentifier") then loadActionIdentifier d
        else throw (Error ("Could not locate constructor named " ++ c
                           ++ ". If the save data is valid, this is a bug."))
    | Some cls =>
        obj ← (emit (FromJSONCall c);; fromJSON cls (VObj o));
        match validationData cls with
        | Some validator => validateObject obj validator;; mret obj
        | None => mret obj
        end
    end.
Proof.
  intros Hc Hd. unfold Reviver.
  assert (Hguard : isReviverValue (VObj o) = true).
  { apply isReviverValue_shaped. by exists o, c, d. }
  by rewrite Hguard, (asReviverValue_shaped o c d Hc Hd).
Qed.


(** C3, as the code has it: a value that is not an object with a string
    [ctor] and a [data] member is returned unchanged; the string may be
    empty, and an object whose [ctor] is the empty string and that has a
    [data] member is treated as an envelope: with nothing registered under
    the empty name, [Reviver] throws. *)
Theorem Reviver_passthrough key value :
  (¬ envelopeShaped value → revive key value = mret value)
  ∧ (∀ (o : gmap string JSValue) d,
       value = VObj o → o !! "ctor" = Some (VStr "") → o !! "data" = Some d →
       constructorsForReviver !! "" = None →
       revive key value
       = throw (Error "Could not locate constructor named . If the save data is valid, this is a bug.")).
Proof.
  split.
  - intros Hno. unfold Reviver.
    assert (Hguard : isReviverValue value = false).
    { apply not_true_iff_false. by rewrite isReviverValue_shaped. }
    by rewrite Hguard.
  - intros o d -> Hc Hd Hreg.
    by rewrite (Reviver_envelope key o "" d Hc Hd), Hreg.
Qed.

(** C4: for an envelope whose tag is one of the unwrapped legacy tags, and
    is not registered, [Reviver] returns the [data] member as it is and
    emits exactly one event, a warning; no [fromJSON] is entered. *)
Theorem Reviver_legacy_unwrap key (o : gmap string JSValue) c d :
  o !! "ctor" = Some (VStr c) → o !! "data" = Some d →
  c ∈ legacyUnwrapped →
  constructorsForReviver !! c = None →
  revive key (VObj o)
  = ([ConsoleWarn ("Legacy load type " ++ c
                   ++ " converted to expected format while loading.")],
     Returned d)
  ∧ ∀ name, FromJSONCall name ∉ trace (revive key (VObj o)).
Proof.
  intros Hc Hd Hlegacy Hreg.
  assert (Hrun : revive key (VObj o)
                 = ([ConsoleWarn ("Legacy load type " ++ c
                                  ++ " converted to expected format while loading.")],
                    Returned d)).
  { rewrite (Reviver_envelope key o c d Hc Hd), Hreg.
    by rewrite bool_decide_eq_true_2. }
  split; [exact Hrun|].
  intros name. rewrite Hrun. simpl. by intros [[=]|[]%elem_of_nil]%elem_of_cons.
Qed.

(** C5, as the code has it: for an envelope tagged ["ActionIdentifier"], not
    registered, [Reviver] is exactly the migration function applied to the
    [data] member: same result, and no event besides those of the
    migration function, so no warning of its own. *)
Theorem Reviver_action_identifier key (o : gmap string JSValue) d :
  o !! "ctor" = Some (VStr "ActionIdentifier") → o !! "data" = Some d →
  constructorsForReviver !! "ActionIdentifier" = None →
  revive key (VObj o) = loadActionIdentifier d.
Proof.
  intros Hc Hd Hreg.
  by rewrite (Reviver_envelope key o _ d Hc Hd), Hreg.
Qed.

(** C9: for an envelope whose tag is registered, [Reviver] enters that
    class's [fromJSON] on the envelope.  When the class declares no schema
    the instance is returned as [fromJSON] made it, with no further event.
    When it declares one, [validateObject] runs on the instance: if it
    throws, [Reviver] throws the same error and returns nothing; otherwise
    the instance is returned. *)
Theorem Reviver_registered key (o : gmap string JSValue) c d cls :
  o !! "ctor" = Some (VStr c) → o !! "data" = Some d →
  constructorsForReviver !! c = Some cls →
  (∃ rest, trace (revive key (VObj o))
           = (FromJSONCall c :: trace (fromJSON cls (VObj o)) ++ rest)%list)
  ∧ (∀ obj, result (fromJSON cls (VObj o)) = Returned obj →
       match validationData cls with
       | None =>
           revive key (VObj o)
           = (FromJSONCall c :: trace (fromJSON cls (VObj o)), Returned obj)
       | Some validator =>
           trace (revive key (VObj o))
           = (FromJSONCall c :: trace (fromJSON cls (VObj o))
                ++ trace (validateObject obj validator))%list
           ∧ match result (validateObject obj validator) with
             | Thrown e => result (revive key (VObj o)) = Thrown e
             | Returned _ => result (revive key (VObj o)) = Returned obj
             end
       end).
Proof.
  intros Hc Hd Hreg.
  rewrite (Reviver_envelope key o c d Hc Hd), Hreg.
  destruct (fromJSON cls (VObj o)) as [t [obj|e]] eqn:Hmade; cbn [trace result fst snd].
  - split.
    + destruct (validationData cls) as [validator|].
      * destruct (validateObject obj validator) as [t' [[]|e']] eqn:Hcheck;
          unfold mbind, M_bind, bind, emit; simpl; rewrite Hcheck; simpl.
        -- exists t'. by rewrite app_nil_r.
        -- by exists t'.
      * exists []. unfold mbind, M_bind, bind, emit. simpl. by rewrite !app_nil_r.
    + intros obj' [= <-]. destruct (validationData cls) as [validator|].
      * destruct (validateObject obj validator) as [t' [[]|e']] eqn:Hcheck;
          unfold mbind, M_bind, bind, emit; simpl; rewrite Hcheck; simpl.
        -- by rewrite app_nil_r.
        -- done.
      * unfold mbind, M_bind, bind, emit. simpl. by rewrite app_nil_r.
  - split; [|by intros obj [=]].
    exists []. unfold mbind, M_bind, bind, emit. simpl. by rewrite app_nil_r.
Qed.

End Reviver_properties.

(** ** The theorems at concrete saves *)


Lemma Reviver_passthrough_witness :
  Samples.revive "" (VNum 5) = mret (VNum 5)
  ∧ Samples.revive "" (envelope {| ctor := ""; data := VNull |})
    = throw (Error "Could not locate constructor named . If the save data is valid, this is a bug.").
Proof.
  split.
  - apply (Reviver_passthrough Samples.validateNumeric Samples.loadPure
             Samples.registry "" (VNum 5)).
    intros (o & c & d & Heq & _). discriminate Heq.
  - eapply (proj2 (Reviver_passthrough Samples.validateNumeric Samples.loadPure
                     Samples.registry "" (envelope {| ctor := ""; data := VNull |})));
      reflexivity.
Defined.

(** C3 as stated fails: [{ ctor: "", data: null }] is not well-formed in the
    specification's sense, and [Reviver] does not return it: it throws. *)
Lemma Reviver_empty_ctor_not_passed_through :
  ¬ wellFormedEnvelope (envelope {| ctor := ""; data := VNull |})
  ∧ Samples.revive "" (envelope {| ctor := ""; data := VNull |})
    = throw (Error "Could not locate constructor named . If the save data is valid, this is a bug.")
  ∧ ¬ (∀ key value, ¬ wellFormedEnvelope value → Samples.revive key value = mret value).
Proof.
  assert (Hnot : ¬ wellFormedEnvelope (envelope {| ctor := ""; data := VNull |})).
  { intros (o & c & d & [= <-] & Hc & Hne & _).
    apply Hne. by injection Hc as <-. }
  split; [exact Hnot|]. split; [reflexivity|].
  intros Hclaim. specialize (Hclaim "" _ Hnot). discriminate Hclaim.
Qed.

Lemma Reviver_legacy_unwrap_witness :
  Samples.revive "" (envelope {| ctor := "Employee"; data := VObj Samples.x1 |})
  = ([ConsoleWarn "Legacy load type Employee converted to expected format while loading."],
     Returned (VObj Samples.x1))
  ∧ ∀ name,
      FromJSONCall name
      ∉ trace (Samples.revive "" (envelope {| ctor := "Employee"; data := VObj Samples.x1 |})).
Proof.
  apply (Reviver_legacy_unwrap Samples.validateNumeric Samples.loadPure
           Samples.registry "" _ "Employee" (VObj Samples.x1)).
  - reflexivity.
  - reflexivity.
  - apply (bool_decide_unpack _). reflexivity.
  - reflexivity.
Defined.

Lemma Reviver_action_identifier_witness :
  Samples.revive "" (envelope {| ctor := "ActionIdentifier"; data := VObj Samples.x1 |})
  = Samples.loadPure (VObj Samples.x1).
Proof.
  apply (Reviver_action_identifier Samples.validateNumeric Samples.loadPure
           Samples.registry "" _ (VObj Samples.x1)); reflexivity.
Defined.

(** C5 as stated fails: with a migration function that does no I/O, reviving
    [{ ctor: "ActionIdentifier", data: { x: 1 } }] emits no event at all,
    hence no warning. *)
Lemma Reviver_action_identifier_no_warning :
  Samples.revive "" (envelope {| ctor := "ActionIdentifier"; data := VObj Samples.x1 |})
  = ([], Returned (VObj Samples.x1))
  ∧ ¬ (∀ (load : JSValue -> M JSValue) key (o : gmap string JSValue) d,
         o !! "ctor" = Some (VStr "ActionIdentifier") → o !! "data" = Some d →
         (∃ message,
             ConsoleWarn message
             ∈ trace (Reviver Samples.validateNumeric load Samples.registry key (VObj o)))
         ∧ result (Reviver Samples.validateNumeric load Samples.registry key (VObj o))
           = result (load d)).
Proof.
  split; [reflexivity|].
  intros Hclaim.
  destruct (Hclaim Samples.loadPure ""
              (<["data" := VObj Samples.x1]> (<["ctor" := VStr "ActionIdentifier"]> ∅))
              (VObj Samples.x1) ltac:(by vm_compute) ltac:(by vm_compute))
    as [[message Hwarn] _].
  by apply elem_of_nil in Hwarn.
Qed.

Lemma Reviver_registered_witness :
  result (Samples.revive "" (envelope {| ctor := "Widget"; data := VObj Samples.badData |}))
  = Thrown (ValidationError "Property v must be a number.")
  ∧ Samples.revive "" (envelope {| ctor := "Gadget"; data := VObj Samples.badData |})
    = ([FromJSONCall "Gadget"],
       Returned (VObj (<["v" := VStr "not-a-number"]> (Samples.newWidget tt)))).
Proof.
  split.
  - pose proof (Reviver_registered Samples.validateNumeric Samples.loadPure
                  Samples.registry ""
                  (<["data" := VObj Samples.badData]> (<["ctor" := VStr "Widget"]> ∅))
                  "Widget" (VObj Samples.badData) Samples.Widget) as Hrun.
    destruct Hrun as [_ Hrun]; [by vm_compute ..|].
    specialize (Hrun (VObj (<["v" := VStr "not-a-number"]> (Samples.newWidget tt)))).
    exact (proj2 (Hrun ltac:(by vm_compute))).
  - pose proof (Reviver_registered Samples.validateNumeric Samples.loadPure
                  Samples.registry ""
                  (<["data" := VObj Samples.badData]> (<["ctor" := VStr "Gadget"]> ∅))
                  "Gadget" (VObj Samples.badData) Samples.Gadget) as Hrun.
    destruct Hrun as [_ Hrun]; [by vm_compute ..|].
    specialize (Hrun (VObj (<["v" := VStr "not-a-number"]> (Samples.newWidget tt)))).
    exact (Hrun ltac:(by vm_compute)).
Defined.

(** * Further properties of the reviver and the generic pair *)

(** The object literal [{ ctor, data }] narrows back to its two members. *)
Lemma asReviverValue_envelope rv : asReviverValue (envelope rv) = Some rv.
Proof.
  destruct rv as [c d]. apply (asReviverValue_shaped _ c d); by vm_compute.
Qed.

(** ** The allow-list is used as a set *)





(** ** Serializing twice, and the fields of a rebuilt instance *)

(** X3: serializing the data of an envelope again with the same allow-list
    changes nothing: the data already holds exactly the listed fields. *)
Theorem Generic_toJSON_twice ctorName ctorName' (obj : gmap string JSValue) keys :
  ∃ d : gmap string JSValue,
    data (Generic_toJSON ctorName obj (Some keys)) = VObj d
    ∧ Generic_toJSON ctorName' d (Some keys) = {| ctor := ctorName'; data := VObj d |}.
Proof.
  destruct (Generic_toJSON_keys ctorName obj keys) as (d & -> & Hd).
  exists d. split; [done|].
  destruct (Generic_toJSON_keys ctorName' d keys) as (d' & -> & Hd').
  do 2 f_equal. apply map_eq; intros k. rewrite Hd'.
  case_decide as Hk; rewrite Hd; [|by rewrite decide_False].
  unfold get at 1. by rewrite Hd, !decide_True.
Qed.


(** X5: with no allow-list on either side the round trip holds for every
    instance, also for fields that hold [undefined]: each field of [x] comes
    back with the value it had, and every other field holds its default. *)
Theorem Generic_roundtrip_unlisted ctorName ctor (x : gmap string JSValue) :
  ∃ y : gmap string JSValue,
    Generic_fromJSON ctor (data (Generic_toJSON ctorName x None)) None = mret y
    ∧ (∀ k v, x !! k = Some v → y !! k = Some v)
    ∧ (∀ k, x !! k = None → y !! k = ctor tt !! k).
Proof.
  exists (x ∪ ctor tt). split; [apply Generic_roundtrip_all_fields|]. split.
  - intros k v Hk. by rewrite (lookup_union_Some_l _ _ _ _ Hk).
  - intros k Hk. by rewrite lookup_union_r.
Qed.

(** X6: an envelope written with an allow-list and read without one assigns
    every listed field, also those the instance lacked: such a field ends up
    holding [undefined] in place of its default. *)
Theorem Generic_listed_then_unlisted ctorName ctor (x : gmap string JSValue) keys :
  ∃ y : gmap string JSValue,
    Generic_fromJSON ctor (data (Generic_toJSON ctorName x (Some keys))) None = mret y
    ∧ (∀ k, k ∈ keys → y !! k = Some (get x k))
    ∧ (∀ k, k ∈ keys → x !! k = None → y !! k = Some VUndefined)
    ∧ (∀ k, k ∉ keys → y !! k = ctor tt !! k).
Proof.
  destruct (Generic_toJSON_keys ctorName x keys) as (d & -> & Hd).
  exists (d ∪ ctor tt). split; [apply Generic_fromJSON_all|]. split; [|split].
  - intros k Hk. apply lookup_union_Some_l. by rewrite Hd, decide_True.
  - intros k Hk Hx. apply lookup_union_Some_l.
    rewrite Hd, decide_True by done. unfold get. by rewrite Hx.
  - intros k Hk. rewrite lookup_union_r; [done|]. by rewrite Hd, decide_False.
Qed.

Lemma Generic_listed_then_unlisted_witness :
  ∃ y : gmap string JSValue,
    Generic_fromJSON Samples.newA (data (Generic_toJSON "A" Samples.x1 (Some ["a"]))) None
    = mret y
    ∧ y !! "a" = Some VUndefined.
Proof.
  destruct (Generic_listed_then_unlisted "A" Samples.newA Samples.x1 ["a"])
    as (y & Hy & _ & Hmiss & _).
  exists y. split; [exact Hy|]. apply Hmiss; [left | by vm_compute].
Defined.

(** ** Reviver with the generic pair *)

Section Reviver_composition.

Context {ObjectValidator : Type}.
Variable validateObject : JSValue -> ObjectValidator -> M unit.
Variable loadActionIdentifier : JSValue -> M JSValue.
Variable constructorsForReviver : gmap string (JsonableClass ObjectValidator).

Local Abbreviation revive :=
  (Reviver validateObject loadActionIdentifier constructorsForReviver).

(** X7: when the registered [fromJSON] throws, [Reviver] throws the same
    error right away: the outcome does not depend on the class's schema nor
    on [validateObject], which is not run. *)
Theorem Reviver_fromJSON_throws key (o : gmap string JSValue) c d cls t e :
  o !! "ctor" = Some (VStr c) → o !! "data" = Some d →
  constructorsForReviver !! c = Some cls →
  fromJSON cls (VObj o) = (t, Thrown e) →
  revive key (VObj o) = (FromJSONCall c :: t, Thrown e).
Proof.
  intros Hc Hd Hreg Hthrow.
  rewrite (Reviver_envelope _ _ _ key o c d Hc Hd), Hreg.
  unfold mbind, M_bind, bind, emit. simpl. rewrite Hthrow. simpl. done.
Qed.

(** X8: save and load compose.  For a class registered under [c] whose
    [fromJSON] is [Generic_fromJSON] on the envelope's data, reviving what
    [Generic_toJSON c x] wrote enters that [fromJSON] once and returns [x]
    laid over the class's defaults, provided the class's schema, if it has
    one, accepts that instance. *)
Theorem Reviver_generic_roundtrip key c cls newInstance (x : gmap string JSValue) :
  constructorsForReviver !! c = Some cls →
  (∀ rv, fromJSON cls (envelope rv)
         = (obj ← Generic_fromJSON newInstance (data rv) None; mret (VObj obj))) →
  (∀ validator, validationData cls = Some validator →
                validateObject (VObj (x ∪ newInstance tt)) validator = mret tt) →
  revive key (envelope (Generic_toJSON c x None))
  = ([FromJSONCall c], Returned (VObj (x ∪ newInstance tt))).
Proof.
  intros Hreg Hfrom Hvalid. rewrite Generic_toJSON_all. unfold envelope at 1.
  rewrite (Reviver_envelope _ _ _ key _ c (VObj x)) by (by vm_compute).
  cbn [ctor data]. rewrite Hreg.
  change (VObj (<["data":=VObj x]> (<["ctor":=VStr c]> ∅)))
    with (envelope {| ctor := c; data := VObj x |}).
  rewrite Hfrom. cbn [data]. rewrite Generic_fromJSON_all, bind_ret_l.
  unfold mbind, M_bind, bind, emit, mret, M_ret, ret. cbn [app].
  destruct (validationData cls) as [validator|] eqn:Hschema.
  - rewrite (Hvalid validator eq_refl). reflexivity.
  - reflexivity.
Qed.

End Reviver_composition.

Lemma Reviver_fromJSON_throws_witness :
  Samples.revive "" (envelope {| ctor := "Widget"; data := VNull |})
  = ([FromJSONCall "Widget"], Thrown TypeAssertionError).
Proof.
  apply (Reviver_fromJSON_throws Samples.validateNumeric Samples.loadPure
           Samples.registry "" _ "Widget" VNull Samples.Widget [] TypeAssertionError);
    by vm_compute.
Defined.

Lemma Reviver_generic_roundtrip_witness :
  Samples.revive "" (envelope (Generic_toJSON "Widget" Samples.goodData None))
  = ([FromJSONCall "Widget"], Returned (VObj (Samples.goodData ∪ Samples.newWidget tt))).
Proof.
  apply (Reviver_generic_roundtrip Samples.validateNumeric Samples.loadPure
           Samples.registry "" "Widget" Samples.Widget Samples.newWidget Samples.goodData).
  - by vm_compute.
  - intros rv. unfold fromJSON, Samples.Widget, Samples.Widget_fromJSON, envelope, get.
    by rewrite lookup_insert_eq.
  - intros validator [= <-]. by vm_compute.
Defined.

(** * Properties of the string helpers *)

(** ** Strings *)

Lemma string_app_cons c (s1 s2 : string) : String c s1 ++ s2 = String c (s1 ++ s2).
Proof. reflexivity. Qed.

Lemma string_app_nil_r (s : string) : s ++ "" = s.
Proof. induction s as [|c s IH]; [done|]. by rewrite string_app_cons, IH. Qed.

Lemma string_app_assoc (s1 s2 s3 : string) : (s1 ++ s2) ++ s3 = s1 ++ (s2 ++ s3).
Proof. induction s1 as [|c s1 IH]; [done|]. by rewrite !string_app_cons, IH. Qed.

Lemma string_length_app (s1 s2 : string) :
  String.length (s1 ++ s2) = (String.length s1 + String.length s2)%nat.
Proof. induction s1 as [|c s1 IH]; [done|]. rewrite string_app_cons. simpl. by rewrite IH. Qed.

(** [s.substring(0, n)] is the prefix of length [n]. *)
Lemma substring0_prefix (s : string) n :
  (n ≤ String.length s)%nat →
  ∃ tail, s = String.substring 0 n s ++ tail
          ∧ String.length (String.substring 0 n s) = n.
Proof.
  revert n. induction s as [|c s IH]; intros [|n] Hn; simpl in *; try lia.
  - by exists "".
  - by exists (String c s).
  - destruct (IH n ltac:(lia)) as (tail & Heq & Hlen).
    exists tail. rewrite string_app_cons, <-Heq. auto.
Qed.

Lemma substring0_all (s : string) : String.substring 0 (String.length s) s = s.
Proof. induction s as [|c s IH]; [done|]. simpl. by rewrite IH. Qed.

Lemma charAt_cons c (s : string) i : charAt (String c s) (S i) = charAt s i.
Proof. reflexivity. Qed.

Lemma charAt_app_l (s tail : string) i :
  (i < String.length s)%nat → charAt (s ++ tail) i = charAt s i.
Proof.
  revert i. induction s as [|c s IH]; intros i Hi; simpl in *; [lia|].
  rewrite string_app_cons. destruct i as [|i]; [done|].
  rewrite !charAt_cons. apply IH. lia.
Qed.

Lemma charAt_beyond (s : string) i : (String.length s ≤ i)%nat → charAt s i = "".
Proof.
  revert i. induction s as [|c s IH]; intros i Hi; simpl in *.
  - by destruct i.
  - destruct i as [|i]; [lia|]. rewrite charAt_cons. apply IH. lia.
Qed.

Lemma charAt_within (s : string) i :
  (i < String.length s)%nat → ∃ c, charAt s i = String c "".
Proof.
  revert i. induction s as [|c s IH]; intros i Hi; simpl in *; [lia|].
  destruct i as [|i]; [by exists c|]. rewrite charAt_cons. apply IH. lia.
Qed.

(** ** longestCommonStart *)

Lemma forallb_false_elem {A} (f : A → bool) (l : list A) :
  forallb f l = false → ∃ x, x ∈ l ∧ f x = false.
Proof.
  induction l as [|x l IH]; [done|]. simpl. intros [Hx|Hl]%andb_false_iff.
  - exists x. split; [left|done].
  - destruct (IH Hl) as (y & Hy & Hfy). exists y. split; [by right|done].
Qed.

Lemma containsAllStrings_VStr (l : list string) : containsAllStrings (VStr <$> l) = true.
Proof. induction l as [|s l IH]; [done|]. simpl. exact IH. Qed.

Lemma theStrings_VStr (l : list string) : theStrings (VStr <$> l) = l.
Proof. induction l as [|s l IH]; [done|]. unfold theStrings in *. cbn. by rewrite IH. Qed.

Lemma containsAllStrings_theStrings arr :
  containsAllStrings arr = true → arr = VStr <$> theStrings arr.
Proof.
  induction arr as [|v arr IH]; [done|]. simpl. intros [Hv Harr]%andb_true_iff.
  destruct v; try done. unfold theStrings in *. cbn. by rewrite <-IH.
Qed.

Section StringHelper_properties.

Variable toUpperCase : string -> string.

(** What the two loops return: the prefix of [a1] that ends at the first
    position where some other string differs, up to case. *)
Lemma commonStartFrom_spec (a1 : string) others todo i :
  (todo + i = String.length a1)%nat →
  ∃ n, (i ≤ n ≤ String.length a1)%nat
       ∧ commonStartFrom toUpperCase a1 others todo i = String.substring 0 n a1
       ∧ (∀ j s, (i ≤ j < n)%nat → s ∈ others →
                 toUpperCase (charAt a1 j) = toUpperCase (charAt s j))
       ∧ ((n < String.length a1)%nat →
          ∃ s, s ∈ others ∧ toUpperCase (charAt a1 n) ≠ toUpperCase (charAt s n)).
Proof.
  revert i. induction todo as [|todo IH]; intros i Hlen.
  - exists (String.length a1). simpl in *. subst i.
    split; [lia|]. split; [by rewrite substring0_all|]. split; [|lia].
    intros j s Hj. lia.
  - cbn [commonStartFrom].
    destruct (forallb _ others) eqn:Hall.
    + destruct (IH (S i) ltac:(lia)) as (n & Hn & Hres & Hcommon & Hmax).
      exists n. split; [lia|]. split; [exact Hres|]. split; [|exact Hmax].
      intros j s Hj Hs. destruct (decide (j = i)) as [->|Hne].
      * rewrite forallb_forall in Hall.
        apply list_elem_of_In, Hall in Hs. by apply bool_decide_eq_true_1 in Hs.
      * apply Hcommon; [lia|done].
    + exists i. split; [lia|]. split; [done|]. split; [intros j s Hj; lia|].
      intros _. apply forallb_false_elem in Hall as (s & Hs & Hdiff).
      exists s. split; [done|].
      by apply bool_decide_eq_false_1 in Hdiff.
Qed.

Lemma longestCommonStart_strings (a1 : string) others :
  longestCommonStart toUpperCase (VStr <$> a1 :: others)
  = commonStartFrom toUpperCase a1 others (String.length a1) 0.
Proof.
  unfold longestCommonStart.
  by rewrite containsAllStrings_VStr, theStrings_VStr.
Qed.

(** The result on an array of strings, in one statement. *)
Lemma longestCommonStart_spec (a1 : string) others :
  ∃ n tail,
    (n ≤ String.length a1)%nat
    ∧ a1 = longestCommonStart toUpperCase (VStr <$> a1 :: others) ++ tail
    ∧ String.length (longestCommonStart toUpperCase (VStr <$> a1 :: others)) = n
    ∧ (∀ j s, (j < n)%nat → s ∈ others →
              toUpperCase (charAt a1 j) = toUpperCase (charAt s j))
    ∧ ((n < String.length a1)%nat →
       ∃ s, s ∈ others ∧ toUpperCase (charAt a1 n) ≠ toUpperCase (charAt s n)).
Proof.
  rewrite longestCommonStart_strings.
  destruct (commonStartFrom_spec a1 others (String.length a1) 0 ltac:(lia))
    as (n & Hn & -> & Hcommon & Hmax).
  destruct (substring0_prefix a1 n ltac:(lia)) as (tail & Htail & Hlen).
  exists n, tail. split; [lia|]. split; [exact Htail|]. split; [exact Hlen|].
  split; [|exact Hmax]. intros j s Hj. apply Hcommon. lia.
Qed.

(** X9: the result of [longestCommonStart] is a prefix of the first string,
    in the casing of the first string. *)
Theorem longestCommonStart_prefix (a1 : string) rest :
  ∃ tail, a1 = longestCommonStart toUpperCase (VStr a1 :: rest) ++ tail.
Proof.
  destruct (containsAllStrings (VStr a1 :: rest)) eqn:Hall.
  - apply containsAllStrings_theStrings in Hall. rewrite Hall.
    change (theStrings (VStr a1 :: rest)) with (a1 :: theStrings rest).
    destruct (longestCommonStart_spec a1 (theStrings rest)) as (n & tail & _ & Htail & _).
    by exists tail.
  - exists a1. unfold longestCommonStart. by rewrite Hall.
Qed.

(** X10: every string of the array agrees with the result, up to case, at
    every position of the result. *)
Theorem longestCommonStart_common (l : list string) s i :
  s ∈ l →
  (i < String.length (longestCommonStart toUpperCase (VStr <$> l)))%nat →
  toUpperCase (charAt s i)
  = toUpperCase (charAt (longestCommonStart toUpperCase (VStr <$> l)) i).
Proof.
  destruct l as [|a1 others]; [by intros ?%elem_of_nil|].
  destruct (longestCommonStart_spec a1 others) as (n & tail & Hn & Htail & Hlen & Hcommon & _).
  intros Hs Hi. rewrite Hlen in Hi.
  assert (Ha1 : charAt a1 i = charAt (longestCommonStart toUpperCase (VStr <$> a1 :: others)) i).
  { rewrite Htail at 1. apply charAt_app_l. by rewrite Hlen. }
  rewrite <-Ha1. apply elem_of_cons in Hs as [->|Hs]; [done|].
  symmetry. by apply Hcommon.
Qed.

(** X11: the result is the longest such prefix: when it stops short of the
    first string, some other string differs from the first one, up to case,
    at the position where it stops. *)
Theorem longestCommonStart_maximal (a1 : string) others :
  (String.length (longestCommonStart toUpperCase (VStr <$> a1 :: others))
   < String.length a1)%nat →
  ∃ s, s ∈ others
       ∧ toUpperCase (charAt a1 (String.length
                                   (longestCommonStart toUpperCase (VStr <$> a1 :: others))))
         ≠ toUpperCase (charAt s (String.length
                                    (longestCommonStart toUpperCase (VStr <$> a1 :: others)))).
Proof.
  destruct (longestCommonStart_spec a1 others) as (n & tail & Hn & _ & Hlen & _ & Hmax).
  rewrite Hlen. exact Hmax.
Qed.

(** X12: an array that holds anything but strings gives the empty string. *)
Theorem longestCommonStart_not_all_strings strings value :
  value ∈ strings → isString value = false →
  longestCommonStart toUpperCase strings = "".
Proof.
  intros Hin Hvalue. unfold longestCommonStart.
  assert (Hall : containsAllStrings strings = false).
  { apply not_true_iff_false. intros Hall. unfold containsAllStrings in Hall.
    rewrite forallb_forall in Hall. apply list_elem_of_In, Hall in Hin. congruence. }
  by rewrite Hall.
Qed.

(** X13: since an upper-cased character is never the upper-cased empty
    string, the result is no longer than any string of the array. *)
Theorem longestCommonStart_shortest (l : list string) s :
  (∀ c, toUpperCase (String c "") ≠ toUpperCase "") →
  s ∈ l →
  (String.length (longestCommonStart toUpperCase (VStr <$> l)) ≤ String.length s)%nat.
Proof.
  intros Hupper Hs. destruct l as [|a1 others]; [by apply elem_of_nil in Hs|].
  destruct (longestCommonStart_spec a1 others) as (n & tail & Hn & Htail & Hlen & Hcommon & _).
  rewrite Hlen. apply elem_of_cons in Hs as [->|Hs]; [done|].
  destruct (decide (n ≤ String.length s)%nat) as [|Hlong]; [done|].
  specialize (Hcommon (String.length s) s ltac:(lia) Hs).
  rewrite (charAt_beyond s) in Hcommon by done.
  destruct (charAt_within a1 (String.length s) ltac:(lia)) as [c Hc].
  rewrite Hc in Hcommon. by destruct (Hupper c).
Qed.

(** ** capitalizeFirstLetter and capitalizeEachWord *)

Lemma splitSpace_nonempty (s : string) : splitSpace s ≠ [].
Proof.
  induction s as [|c s IH]; [done|]. simpl.
  case_bool_decide; [done|]. by destruct (splitSpace s).
Qed.

Lemma splitSpace_app_space (a b : string) :
  splitSpace (a ++ " " ++ b) = (splitSpace a ++ splitSpace b)%list.
Proof.
  induction a as [|c a IH]; [done|].
  rewrite string_app_cons. simpl. rewrite IH.
  case_bool_decide; [done|].
  pose proof (splitSpace_nonempty a). by destruct (splitSpace a).
Qed.

Lemma concat_app (sep : string) (l1 l2 : list string) :
  l1 ≠ [] → l2 ≠ [] →
  String.concat sep (l1 ++ l2)%list = String.concat sep l1 ++ sep ++ String.concat sep l2.
Proof.
  intros Hl1 Hl2. induction l1 as [|w [|w' l1] IH]; [done|..].
  - destruct l2; [done|]. reflexivity.
  - specialize (IH ltac:(done)).
    change (String.concat sep ((w :: w' :: l1) ++ l2)%list)
      with (w ++ sep ++ String.concat sep ((w' :: l1) ++ l2)%list).
    rewrite IH.
    change (String.concat sep (w :: w' :: l1))
      with (w ++ sep ++ String.concat sep (w' :: l1)).
    by rewrite !string_app_assoc.
Qed.

(** X14: [capitalizeEachWord] works word by word: it distributes over the
    joining of two strings with a space. *)
Theorem capitalizeEachWord_space (a b : string) :
  capitalizeEachWord toUpperCase (a ++ " " ++ b)
  = capitalizeEachWord toUpperCase a ++ " " ++ capitalizeEachWord toUpperCase b.
Proof.
  unfold capitalizeEachWord. rewrite splitSpace_app_space, fmap_app.
  apply concat_app; intros Hnil%fmap_nil_inv; by apply splitSpace_nonempty in Hnil.
Qed.




End StringHelper_properties.

(** The properties of [longestCommonStart] and [capitalizeEachWord] on
    ["abX"], ["ABy"], ["aB"] and on ["ab ba  h"]. *)

Lemma longestCommonStart_common_witness :
  HelperSamples.toUpperCase (charAt "ABy" 1)
  = HelperSamples.toUpperCase
      (charAt (longestCommonStart HelperSamples.toUpperCase (VStr <$> ["abX"; "ABy"; "aB"])) 1).
Proof.
  apply (longestCommonStart_common HelperSamples.toUpperCase ["abX"; "ABy"; "aB"] "ABy" 1).
  - right; left.
  - vm_compute. lia.
Defined.

Lemma longestCommonStart_maximal_witness :
  ∃ s, s ∈ ["ABy"; "aB"]
       ∧ HelperSamples.toUpperCase
           (charAt "abX" (String.length
                            (longestCommonStart HelperSamples.toUpperCase
                               (VStr <$> ["abX"; "ABy"; "aB"]))))
         ≠ HelperSamples.toUpperCase
             (charAt s (String.length
                          (longestCommonStart HelperSamples.toUpperCase
                             (VStr <$> ["abX"; "ABy"; "aB"])))).
Proof.
  apply (longestCommonStart_maximal HelperSamples.toUpperCase "abX" ["ABy"; "aB"]).
  vm_compute. lia.
Defined.

Lemma longestCommonStart_not_all_strings_witness :
  longestCommonStart HelperSamples.toUpperCase [VStr "abX"; VNum 3] = "".
Proof.
  apply (longestCommonStart_not_all_strings HelperSamples.toUpperCase _ (VNum 3)).
  - right; left.
  - reflexivity.
Defined.

Lemma longestCommonStart_shortest_witness :
  (String.length (longestCommonStart HelperSamples.toUpperCase (VStr <$> ["abX"; "ABy"; "aB"]))
   ≤ String.length "aB")%nat.
Proof.
  apply (longestCommonStart_shortest HelperSamples.toUpperCase ["abX"; "ABy"; "aB"] "aB").
  - intros c. discriminate.
  - right; right; left.
Defined.


(** ** cyrb53 *)

Lemma toInt32_add_period (z k : Z) : toInt32 (z + k * 2 ^ 32) = toInt32 z.
Proof.
  unfold toInt32. f_equal.
  replace (z + k * 2 ^ 32 + 2 ^ 31)%Z with (z + 2 ^ 31 + k * 2 ^ 32)%Z by lia.
  apply Z.mod_add. lia.
Qed.

Lemma toInt32_small (z : Z) : (- 2 ^ 31 ≤ z < 2 ^ 31)%Z → toInt32 z = z.
Proof. intros Hz. unfold toInt32. rewrite Z.mod_small; lia. Qed.

Lemma and32_mask21_range (x : Z) : (0 ≤ and32 2097151 x < 2 ^ 21)%Z.
Proof.
  unfold and32. rewrite (toInt32_small 2097151) by lia.
  change 2097151%Z with (Z.ones 21).
  rewrite Z.land_comm, Z.land_ones by lia.
  pose proof (Z.mod_pos_bound (toInt32 x) (2 ^ 21) ltac:(lia)) as Hmod.
  rewrite toInt32_small; lia.
Qed.

Lemma ushr32_0_range (x : Z) : (0 ≤ ushr32 x 0 < 2 ^ 32)%Z.
Proof.
  unfold ushr32, toUint32. rewrite Z.shiftr_0_r.
  apply Z.mod_pos_bound. lia.
Qed.

(** X16: the number that [cyrb53] prints is a non-negative integer below
    [2^53], whatever the string and the seed. *)
Theorem cyrb53Number_range (str : string) (seed : Z) :
  (0 ≤ cyrb53Number str seed < 2 ^ 53)%Z.
Proof.
  unfold cyrb53Number.
  destruct (foldl cyrb53Mix _ (charCodes str)) as [h1 h2].
  match goal with
  | |- (0 ≤ 4294967296 * and32 2097151 ?a + ushr32 ?b 0 < _)%Z =>
      pose proof (and32_mask21_range a); pose proof (ushr32_0_range b)
  end.
  lia.
Qed.

(** X17: only the low 32 bits of the seed count: seeds that differ by a
    multiple of [2^32] give the same hash. *)
Theorem cyrb53_seed_period (str : string) (seed k : Z) :
  cyrb53 str (seed + k * 2 ^ 32) = cyrb53 str seed.
Proof.
  unfold cyrb53, cyrb53Number, xor32. by rewrite !toInt32_add_period.
Qed.

(** ** generateRandomString *)

Lemma generateFrom_spec (random : nat → nat) todo i (str : string) :
  (∀ j, random j < 62)%nat →
  String.length (generateFrom random todo i str) = (String.length str + todo)%nat
  ∧ ∀ p c, String.get p (generateFrom random todo i str) = Some c →
           String.get p str = Some c ∨ ∃ q, String.get q randomChars = Some c.
Proof.
  intros Hrandom. revert i str. induction todo as [|todo IH]; intros i str.
  - simpl. split; [lia|]. intros p c Hp. by left.
  - cbn [generateFrom]. destruct (IH (S i) (str ++ charAt randomChars (random i))) as [Hlen Hchars].
    destruct (charAt_within randomChars (random i)) as [c0 Hc0].
    { specialize (Hrandom i). by vm_compute; lia. }
    split.
    + rewrite Hlen, string_length_app, Hc0. simpl. lia.
    + intros p c Hp. destruct (Hchars p c Hp) as [Hstr|Hq]; [|by right].
      rewrite Hc0 in Hstr.
      destruct (decide (p < String.length str)%nat) as [Hlt|Hge].
      * left. by rewrite <-String.append_correct1 in Hstr.
      * right. exists (random i).
        replace p with ((p - String.length str) + String.length str)%nat in Hstr by lia.
        rewrite <-String.append_correct2 in Hstr.
        unfold charAt in Hc0. destruct (String.get (random i) randomChars) as [c1|]; [|done].
        injection Hc0 as ->.
        destruct (p - String.length str)%nat; simpl in Hstr; congruence.
Qed.

(** X18: with every draw inside the alphabet, as [Math.random] guarantees, the
    string has [n] characters and each of them is one of the 62 letters and
    digits. *)
Theorem generateRandomString_spec (random : nat → nat) (n : Z) :
  (∀ j, random j < 62)%nat →
  String.length (generateRandomString random n) = Z.to_nat n
  ∧ ∀ p c, String.get p (generateRandomString random n) = Some c →
           ∃ q, String.get q randomChars = Some c.
Proof.
  intros Hrandom. unfold generateRandomString.
  destruct (generateFrom_spec random (Z.to_nat n) 0 "" Hrandom) as [Hlen Hchars].
  split; [exact Hlen|].
  intros p c Hp. destruct (Hchars p c Hp) as [Hempty|Hq]; [|done].
  by destruct p.
Qed.

Lemma generateRandomString_spec_witness :
  String.length (generateRandomString HelperSamples.draws 5) = Z.to_nat 5
  ∧ ∀ p c, String.get p (generateRandomString HelperSamples.draws 5) = Some c →
           ∃ q, String.get q randomChars = Some c.
Proof.
  apply (generateRandomString_spec HelperSamples.draws 5).
  intros j. unfold HelperSamples.draws. apply Nat.mod_upper_bound. lia.
Defined.

(** ** convertTimeMsToTimeElapsedString *)

(** X19: a negative duration is printed as the positive one, wrapped in
    [-( )]. *)
Theorem convertTime_negative (showMiddle : bool) (time : Z) (showMilli : bool) :
  (0 < time)%Z →
  convertTimeMsToTimeElapsedString showMiddle (- time) showMilli
  = "-(" ++ convertTimeMsToTimeElapsedString showMiddle time showMilli ++ ")".
Proof.
  intros Hpos. unfold convertTimeMsToTimeElapsedString. cbv zeta.
  rewrite Z.abs_opp.
  rewrite (bool_decide_eq_true_2 (- time < 0)%Z) by lia.
  by rewrite (bool_decide_eq_false_2 (time < 0)%Z) by lia.
Qed.

(** X20: below one minute only the seconds are printed, whatever the
    setting for empty units: ["1 second"] for one second, ["N seconds"]
    otherwise. *)
Theorem convertTime_under_a_minute (showMiddle : bool) (time : Z) :
  (0 ≤ time < 60000)%Z →
  convertTimeMsToTimeElapsedString showMiddle time false
  = pretty (time `div` 1000)%Z ++ " second" ++ plural (time `div` 1000)%Z.
Proof.
  intros Htime. unfold convertTimeMsToTimeElapsedString. cbv zeta.
  rewrite Z.abs_eq by lia.
  change (60 * 60 * 24)%Z with 86400%Z. change (60 * 60)%Z with 3600%Z.
  assert (Hq : (0 ≤ time `div` 1000 < 60)%Z).
  { split; [apply Z.div_pos; lia|apply Z.div_lt_upper_bound; lia]. }
  set (q := (time `div` 1000)%Z) in *.
  rewrite (Z.div_small q 86400), (Z.mod_small q 86400) by lia.
  rewrite (Z.div_small q 3600), (Z.mod_small q 3600) by lia.
  rewrite (Z.div_small q 60), (Z.mod_small q 60) by lia.
  rewrite (bool_decide_eq_false_2 (time < 0)%Z) by lia.
  rewrite (bool_decide_eq_false_2 (0 < 0)%Z) by lia.
  rewrite (bool_decide_eq_true_2 ("" = "")) by done.
  rewrite !andb_false_r. simpl. by unfold plural.
Qed.

Lemma padTo3_length (str : string) :
  (String.length str ≤ 3)%nat → String.length (padTo3 3 str) = 3%nat.
Proof.
  destruct str as [|c1 [|c2 [|c3 [|c4 str]]]]; simpl; intros Hlen; try done. lia.
Qed.

Lemma pretty_up_to_999 :
  forallb (fun k => String.length (pretty (Z.of_nat k)) <=? 3)%nat (seq 0 1000) = true.
Proof. vm_compute. reflexivity. Qed.

Lemma pretty_below_1000 (n : Z) :
  (0 ≤ n < 1000)%Z → (String.length (pretty n) ≤ 3)%nat.
Proof.
  intros Hn. pose proof pretty_up_to_999 as Hall.
  rewrite forallb_forall in Hall.
  specialize (Hall (Z.to_nat n)). rewrite Z2Nat.id in Hall by lia.
  apply Nat.leb_le. apply Hall. apply in_seq. lia.
Qed.

(** X21: with [showMilli] the milliseconds are always printed with three
    digits, after a dot, and the unit is always in the plural. *)
Theorem convertTime_milliseconds (showMiddle : bool) (time : Z) :
  (0 ≤ time)%Z →
  ∃ front millis,
    convertTimeMsToTimeElapsedString showMiddle time true
    = front ++ "." ++ millis ++ " seconds"
    ∧ String.length millis = 3%nat
    ∧ millis = padTo3 3 (pretty (time `mod` 1000)%Z).
Proof.
  intros Htime. unfold convertTimeMsToTimeElapsedString. cbv zeta.
  rewrite (bool_decide_eq_false_2 (time < 0)%Z) by lia.
  rewrite Z.abs_eq by lia. cbn [negb andb].
  match goal with
  | |- ∃ front millis, ?res ++ (pretty ?sec ++ "." ++ ?m) ++ _ = _ ∧ _ =>
      exists (res ++ pretty sec), m
  end.
  split; [|split; [|reflexivity]].
  - rewrite !string_app_assoc. reflexivity.
  - apply padTo3_length, pretty_below_1000, Z.mod_pos_bound. lia.
Qed.

Lemma convertTime_negative_witness :
  convertTimeMsToTimeElapsedString false (- 90061001) true
  = "-(" ++ convertTimeMsToTimeElapsedString false 90061001 true ++ ")".
Proof. apply (convertTime_negative false 90061001 true). lia. Defined.

Lemma convertTime_under_a_minute_witness :
  convertTimeMsToTimeElapsedString true 1000 false
  = pretty (1000 `div` 1000)%Z ++ " second" ++ plural (1000 `div` 1000)%Z.
Proof. apply (convertTime_under_a_minute true 1000). lia. Defined.

Lemma convertTime_milliseconds_witness :
  ∃ front millis,
    convertTimeMsToTimeElapsedString false 61001 true
    = front ++ "." ++ millis ++ " seconds"
    ∧ String.length millis = 3%nat
    ∧ millis = padTo3 3 (pretty (61001 `mod` 1000)%Z).
Proof. apply (convertTime_milliseconds false 61001). lia. Defined.

(** * Properties of Settings.load *)

Lemma get_VNum (o : gmap string JSValue) key n : get o key = VNum n → o !! key = Some (VNum n).
Proof. unfold get. destruct (o !! key); simpl; [by intros ->|done]. Qed.

Lemma get_VStr (o : gmap string JSValue) key s : get o key = VStr s → o !! key = Some (VStr s).
Proof. unfold get. destruct (o !! key); simpl; [by intros ->|done]. Qed.

Section Settings_properties.

Variable newURL : string -> option Settings.URL.

Local Abbreviation load := (Settings.load newURL).
Local Abbreviation isValidConnectionHostname := (Settings.isValidConnectionHostname newURL).

(** One [save[key] && Object.assign(Settings[key], save[key])]: the other
    settings stay, and an object under [key] receives the entries. *)
Lemma assignNested_spec key (save Settings Settings' : gmap string JSValue) :
  Settings.assignNested key save Settings = Some Settings' →
  (∀ k, k ≠ key → Settings' !! k = Settings !! k)
  ∧ (truthy (get save key) = false → Settings' = Settings)
  ∧ (∀ t, Settings !! key = Some (VObj t) → truthy (get save key) = true →
          Settings' !! key = Some (VObj (ownEntries (get save key) ∪ t))).
Proof.
  unfold Settings.assignNested. destruct (truthy (get save key)) eqn:Htruthy.
  - destruct (objectAssign (get Settings key) (get save key)) as [target|] eqn:Hassign;
      simpl; [|done].
    intros [= <-]. split; [|split; [done|]].
    + intros k Hk. by rewrite lookup_insert_ne.
    + intros t Ht _. rewrite lookup_insert_eq. unfold get in Hassign at 1.
      rewrite Ht in Hassign. simpl in Hassign. by injection Hassign as <-.
  - intros [= <-]. split; [done|]. split; [done|]. intros t _ [=].
Qed.


Lemma load_Loaded (save Settings Settings' : gmap string JSValue) errors :
  load save Settings = Settings.Loaded errors Settings' →
  ∃ S1 S2 S3 S4,
    Settings.assignNested "theme" save Settings = Some S1
    ∧ Settings.assignNested "styles" save S1 = Some S2
    ∧ Settings.assignNested "overview" save S2 = Some S3
    ∧ Settings.assignNested "EditorTheme" save S3 = Some S4
    ∧ Settings' = Settings.sanitized newURL (delete "theme" save ∪ S4).
Proof.
  unfold Settings.load.
  destruct (Settings.assignNested "theme" save Settings) as [S1|] eqn:H1; [|done].
  destruct (Settings.assignNested "styles" save S1) as [S2|] eqn:H2; [|done].
  destruct (Settings.assignNested "overview" save S2) as [S3|] eqn:H3; [|done].
  destruct (Settings.assignNested "EditorTheme" save S3) as [S4|] eqn:H4; [|done].
  cbv zeta. unfold Settings.sanitized.
  destruct (isValidConnectionHostname _) as [errs valid] eqn:Hvalid. simpl.
  intros [= _ <-]. exists S1, S2, S3, S4. by rewrite Hvalid.
Qed.

Lemma sanitized_other (Settings : gmap string JSValue) k :
  k ≠ "RemoteFileApiAddress" → k ≠ "RemoteFileApiPort" →
  Settings.sanitized newURL Settings !! k = Settings !! k.
Proof.
  intros Ha Hp. unfold Settings.sanitized. cbv zeta.
  destruct (negb (Settings.isValidConnectionPort _)); [rewrite lookup_insert_ne by done|];
    (destruct (negb (isValidConnectionHostname _).2); [by rewrite lookup_insert_ne|done]).
Qed.


(** X22: whatever the save holds, after [load] has returned the port is a
    number between 0 and 65535. *)
Theorem load_port_in_range (save Settings Settings' : gmap string JSValue) errors :
  load save Settings = Settings.Loaded errors Settings' →
  ∃ n, Settings' !! "RemoteFileApiPort" = Some (VNum n) ∧ (0 ≤ n ≤ 65535)%Z.
Proof.
  intros (S1 & S2 & S3 & S4 & _ & _ & _ & _ & ->)%load_Loaded.
  unfold Settings.sanitized. cbv zeta.
  match goal with |- context [Settings.isValidConnectionPort (get ?T _)] => set (S := T) end.
  destruct (Settings.isValidConnectionPort (get S "RemoteFileApiPort")) eqn:Hport; simpl.
  - destruct (get S "RemoteFileApiPort") as [| | |n| |] eqn:Hget; try done.
    apply andb_true_iff in Hport as [Hlo%bool_decide_eq_true_1 Hhi%bool_decide_eq_true_1].
    exists n. split; [by apply get_VNum|lia].
  - exists 0%Z. split; [by rewrite lookup_insert_eq|lia].
Qed.

(** X23: and the address is a string that is either ["localhost"] or accepted
    by [isValidConnectionHostname]; either way it does not start with a
    scheme. *)
Theorem load_address_valid (save Settings Settings' : gmap string JSValue) errors :
  load save Settings = Settings.Loaded errors Settings' →
  ∃ h, Settings' !! "RemoteFileApiAddress" = Some (VStr h)
       ∧ (h = "localhost" ∨ (isValidConnectionHostname (VStr h)).2 = true)
       ∧ String.prefix "http://" h = false
       ∧ String.prefix "https://" h = false.
Proof.
  intros (S1 & S2 & S3 & S4 & _ & _ & _ & _ & ->)%load_Loaded.
  unfold Settings.sanitized. cbv zeta.
  set (S := delete "theme" save ∪ S4).
  assert (Haddr : ∃ h,
    (if negb (isValidConnectionHostname (get S "RemoteFileApiAddress")).2
     then <["RemoteFileApiAddress" := VStr "localhost"]> S else S)
      !! "RemoteFileApiAddress" = Some (VStr h)
    ∧ (h = "localhost" ∨ (isValidConnectionHostname (VStr h)).2 = true)).
  { destruct (isValidConnectionHostname (get S "RemoteFileApiAddress")).2 eqn:Hvalid; simpl.
    - destruct (get S "RemoteFileApiAddress") as [| | | |h|] eqn:Hget; try done.
      exists h. split; [by apply get_VStr|by right].
    - exists "localhost". split; [by rewrite lookup_insert_eq|by left]. }
  destruct Haddr as (h & Hh & Hvalid). exists h. split; [|split; [exact Hvalid|]].
  - destruct (negb (Settings.isValidConnectionPort _)); [by rewrite lookup_insert_ne|done].
  - destruct Hvalid as [->|Hvalid]; [done|].
    unfold Settings.isValidConnectionHostname in Hvalid.
    destruct (String.prefix "http://" h), (String.prefix "https://" h); done.
Qed.




(** X27: a save whose [styles] is [null] leaves [null] in the settings, and
    the next [load] of a save with styles then throws. *)
Theorem load_after_null_styles (save save' Settings Settings' : gmap string JSValue) errors :
  save !! "styles" = Some VNull →
  load save Settings = Settings.Loaded errors Settings' →
  truthy (get save' "styles") = true →
  Settings' !! "styles" = Some VNull
  ∧ ∃ Settings'', load save' Settings' = Settings.Threw Settings''.
Proof.
  intros Hnull Hload Hstyles.
  assert (Hs' : Settings' !! "styles" = Some VNull).
  { apply load_Loaded in Hload as (S1 & S2 & S3 & S4 & _ & _ & _ & _ & ->).
    rewrite sanitized_other by done.
    apply lookup_union_Some_l. by rewrite lookup_delete_ne. }
  split; [exact Hs'|]. unfold Settings.load.
  destruct (Settings.assignNested "theme" save' Settings') as [S1|] eqn:H1; [|by eexists].
  destruct (assignNested_spec _ _ _ _ H1) as (Hother & _).
  assert (Settings.assignNested "styles" save' S1 = None) as ->; [|by eexists].
  unfold Settings.assignNested. rewrite Hstyles. unfold get at 1.
  by rewrite Hother, Hs'.
Qed.

End Settings_properties.

(** The properties of [load] on the sample settings and saves. *)

Lemma load_sample :
  Settings.load HelperSamples.newURL HelperSamples.saved HelperSamples.current
  = Settings.Loaded
      (HelperSamples.errorsOf
         (Settings.load HelperSamples.newURL HelperSamples.saved HelperSamples.current))
      (HelperSamples.settingsOf
         (Settings.load HelperSamples.newURL HelperSamples.saved HelperSamples.current)).
Proof. vm_compute. reflexivity. Qed.

Lemma load_port_in_range_witness :
  ∃ n, HelperSamples.settingsOf
         (Settings.load HelperSamples.newURL HelperSamples.saved HelperSamples.current)
       !! "RemoteFileApiPort" = Some (VNum n)
       ∧ (0 ≤ n ≤ 65535)%Z.
Proof. exact (load_port_in_range _ _ _ _ _ load_sample). Defined.

Lemma load_address_valid_witness :
  ∃ h, HelperSamples.settingsOf
         (Settings.load HelperSamples.newURL HelperSamples.saved HelperSamples.current)
       !! "RemoteFileApiAddress" = Some (VStr h)
       ∧ (h = "localhost"
          ∨ (Settings.isValidConnectionHostname HelperSamples.newURL (VStr h)).2 = true)
       ∧ String.prefix "http://" h = false
       ∧ String.prefix "https://" h = false.
Proof. exact (load_address_valid _ _ _ _ _ load_sample). Defined.




Lemma load_null_styles_sample :
  Settings.load HelperSamples.newURL HelperSamples.savedNullStyles HelperSamples.current
  = Settings.Loaded
      (HelperSamples.errorsOf
         (Settings.load HelperSamples.newURL HelperSamples.savedNullStyles
            HelperSamples.current))
      (HelperSamples.settingsOf
         (Settings.load HelperSamples.newURL HelperSamples.savedNullStyles
            HelperSamples.current)).
Proof. vm_compute. reflexivity. Qed.

Lemma load_after_null_styles_witness :
  HelperSamples.settingsOf
    (Settings.load HelperSamples.newURL HelperSamples.savedNullStyles HelperSamples.current)
  !! "styles" = Some VNull
  ∧ ∃ Settings'',
      Settings.load HelperSamples.newURL HelperSamples.saved
        (HelperSamples.settingsOf
           (Settings.load HelperSamples.newURL HelperSamples.savedNullStyles
              HelperSamples.current))
      = Settings.Threw Settings''.
Proof.
  apply (load_after_null_styles HelperSamples.newURL HelperSamples.savedNullStyles
           HelperSamples.saved HelperSamples.current _ _ ltac:(by vm_compute)
           load_null_styles_sample).
  by vm_compute.
Defined.

(** * Properties of the server filter *)

(** X28: under [ServerType.Foreign] the filter lets every server through
    except one: the world daemon, and only while it is not purchased and the
    player does not have the Red Pill.  The home computer and the purchased
    servers are let through. *)
Theorem isValidServer_foreign (hasTheRedPill : bool) (s : BaseServer) :
  ∃ shown,
    isValidServer ServerType.Foreign hasTheRedPill s = mret shown
    ∧ (shown = false ↔
       hostname s = "w0r1d_d43m0n"
       ∧ (instanceofServer s && purchasedByPlayer s) || instanceofHacknetServer s = false
       ∧ hasTheRedPill = false).
Proof.
  eexists. split; [reflexivity|].
  destruct ((instanceofServer s && purchasedByPlayer s) || instanceofHacknetServer s),
    hasTheRedPill; simpl; rewrite ?andb_false_r; simpl; try by (split; [|intros (_ & ? & ?)]).
  destruct (decide (hostname s = "home")) as [Hhome|Hhome].
  - rewrite (bool_decide_eq_true_2 _ Hhome). simpl. rewrite Hhome.
    split; [done|by intros ([=] & _)].
  - rewrite (bool_decide_eq_false_2 _ Hhome). simpl.
    rewrite negb_false_iff, bool_decide_eq_true. tauto.
Qed.
